(** * Payriff SDK: request construction and response pass-through

    A shallow embedding of [src/PayriffSDK.ts].  The class [PayriffSDK] is a
    thin client: its constructor resolves a configuration against static
    defaults, five asynchronous methods build one HTTP request each and hand
    the parsed JSON reply back, and [isSuccessful] compares a result code.

    The embedding keeps the code's shape:
    - a JavaScript object is a finite map from property names to values (the
      order of properties is not modelled), and the object spread
      [{...defaults, ...request}] is a fold that copies the own properties
      of the source over the target;
    - [a || b] is the falsy-or of the language, through a [Truthy] class;
    - request records live in a store and are passed by reference, so that
      "the method does not write to its argument" is a statement about the
      store;
    - an [async] method is a state transformer that returns a settled
      promise (fulfilled or rejected) and appends to the log of calls handed
      to [fetch];
    - what the runtime supplies ([process.env], [fetch], [JSON.stringify],
      [Response.json]) is the [Host] interface. *)

From Stdlib Require Import PrimFloat.
From stdpp Require Import gmap strings list fin_maps.

Open Scope string_scope.

(** ** JavaScript values, objects and promises *)

Module JS.

(** The primitive values a request record holds.  A [number] is a binary64
    float, as in the language. *)
Inductive value : Type :=
| VUndefined
| VNull
| VBool (b : bool)
| VNum (n : float)
| VStr (s : string).

(** An object is its set of own enumerable data properties.  A property
    may be present and hold [VUndefined]; that differs from an absent
    property, which [!!] reports as [None]. *)
Abbreviation object := (gmap string value).

(** Reading [o.k]: an absent property reads as [undefined]. *)
Definition get (o : object) (k : string) : value :=
  default VUndefined (o !! k).

(** ToBoolean, for the types the code applies [||] to: a string is falsy
    exactly when it is empty. *)
Class Truthy (A : Type) := truthy : A → bool.

#[global] Instance string_truthy : Truthy string :=
  λ s, negb (String.eqb s "").

(** [x || d] where [x] is an optional property read: [undefined] and any
    falsy value fall through to [d]. *)
Definition or {A} `{Truthy A} (x : option A) (d : A) : A :=
  match x with
  | Some a => if truthy a then a else d
  | None => d
  end.

(** An object literal [{k1: v1, ..., kn: vn}]: properties are defined left
    to right, a later duplicate overwrites. *)
Definition literal (props : list (string * value)) : object :=
  foldl (λ o p, <[p.1 := p.2]> o) ∅ props.

(** The spread [{...target_props, ...source}]: every own property of
    [source] is defined on the target, overwriting a property of the same
    name, whatever value it carries. *)
Definition spread (target source : object) : object :=
  map_fold (λ k v o, <[k := v]> o) target source.

(** Reasons a promise is rejected with. *)
Inductive error : Type :=
| TypeError (message : string)     (* [fetch]: the request could not be made *)
| SyntaxError                      (* [Response.json]: the body is not JSON *)
| Unallocated (l : nat).           (* a reference outside the store *)

(** A settled promise. *)
Inductive settled (A : Type) : Type :=
| Fulfilled (a : A)
| Rejected (e : error).
#[global] Arguments Fulfilled {A} a.
#[global] Arguments Rejected {A} e.

Definition map_settled {A B} (f : A → B) (p : settled A) : settled B :=
  match p with
  | Fulfilled a => Fulfilled (f a)
  | Rejected e => Rejected e
  end.

End JS.

Import JS.

(** ** Enumerations and the result-code table *)

Inductive Language : Type := AZ | EN | RU.
Inductive Currency : Type := AZN | USD | EUR.

Definition Language_str (l : Language) : string :=
  match l with AZ => "AZ" | EN => "EN" | RU => "RU" end.
Definition Currency_str (c : Currency) : string :=
  match c with AZN => "AZN" | USD => "USD" | EUR => "EUR" end.

#[global] Instance Language_truthy : Truthy Language :=
  λ l, truthy (Language_str l).
#[global] Instance Currency_truthy : Truthy Currency :=
  λ c, truthy (Currency_str c).

Module ResultCodes.
Definition SUCCESS := "00000".
Definition SUCCESS_GATEWAY := "00".
Definition SUCCESS_GATEWAY_APPROVE := "APPROVED".
Definition SUCCESS_GATEWAY_PREAUTH_APPROVE := "PREAUTH-APPROVED".
Definition WARNING := "01000".
Definition ERROR := "15000".
Definition INVALID_PARAMETERS := "15400".
Definition UNAUTHORIZED := "14010".
Definition TOKEN_NOT_PRESENT := "14013".
Definition INVALID_TOKEN := "14014".
End ResultCodes.

(** ** Configuration, requests on the wire, the client instance *)

Module PayriffConfig.
(** [interface PayriffConfig]: every field is optional. *)
Record t : Type := mk {
  baseUrl : option string;
  secretKey : option string;
  defaultLanguage : option Language;
  defaultCurrency : option Currency;
  defaultCallbackUrl : option string;
}.
(** [{}], the constructor's default argument. *)
Definition empty : t := mk None None None None None.
End PayriffConfig.

Inductive Method : Type := GET | POST.

(** The second argument of [fetch].  [body] is [None] when the literal has no
    [body] key. *)
Record RequestInit : Type := {
  method : Method;
  init_headers : gmap string string;
  body : option string;
}.

(** One call [fetch(url, init)]. *)
Record FetchCall : Type := {
  url : string;
  init : RequestInit;
}.

(** What [fetch] resolves to: the status code and the body text. *)
Record Response : Type := {
  status : nat;
  text : string;
}.

(** What the transport does with a call: fail, or deliver a response. *)
Inductive FetchResult : Type :=
| NetworkFailure (message : string)
| Delivered (r : Response).

(** The private fields of [class PayriffSDK]. *)
Record PayriffSDK : Type := {
  baseUrl : string;
  headers : gmap string string;
  secretKey : string;
  defaultLanguage : Language;
  defaultCurrency : Currency;
  defaultCallbackUrl : string;
}.

(** ** The host runtime *)

Class Host : Type := {
  (** parsed JSON documents; the client never looks inside one *)
  Json : Type;
  (** [process.env] *)
  process_env : gmap string string;
  (** [JSON.stringify] on a request record *)
  JSON_stringify : JS.object → string;
  (** the parser behind [Response.json]; [None] when the text is not JSON *)
  JSON_parse : string → option Json;
  (** the network: the answer to a call, given the calls made before it *)
  transport : list FetchCall → FetchCall → FetchResult;
}.

(** ** The store and the monad of asynchronous methods *)

(** [this], the records the caller holds (by reference), and the log of calls
    handed to [fetch], oldest first. *)
Record State : Type := {
  this : PayriffSDK;
  objects : gmap nat JS.object;
  network : list FetchCall;
}.

Definition M (A : Type) : Type := State → settled A * State.

Definition ret {A} (a : A) : M A := λ s, (Fulfilled a, s).

Definition bind {A B} (m : M A) (k : A → M B) : M B :=
  λ s, match m s with
       | (Fulfilled a, s') => k a s'
       | (Rejected e, s') => (Rejected e, s')
       end.

Notation "'let!' x ':=' m 'in' k" := (bind m (λ x, k))
  (at level 10, x name, m at level 100, k at level 200, only parsing).

Definition get_this : M PayriffSDK := λ s, (Fulfilled (this s), s).

(** Dereference a record. *)
Definition load (l : nat) : M JS.object :=
  λ s, match objects s !! l with
       | Some o => (Fulfilled o, s)
       | None => (Rejected (Unallocated l), s)
       end.

(** Evaluate an object expression: the new object gets a fresh reference. *)
Definition alloc (o : JS.object) : M nat :=
  λ s, let l := fresh (dom (objects s)) in
       (Fulfilled l,
        {| this := this s;
           objects := <[l := o]> (objects s);
           network := network s |}).

(** Record a call in the log. *)
Definition logged (call : FetchCall) (s : State) : State :=
  {| this := this s;
     objects := objects s;
     network := network s ++ [call] |}.

Section Client.
Context `{Host}.

(** *** Static members *)

Definition DEFAULT_BASE_URL : string := "https://api.payriff.com/api/v3".
Definition DEFAULT_SECRET_KEY : string :=
  JS.or (process_env !! "PAYRIFF_SECRET_KEY") "".
Definition DEFAULT_LANGUAGE : Language := AZ.
Definition DEFAULT_CURRENCY : Currency := AZN.
Definition DEFAULT_CALLBACK_URL : string :=
  JS.or (process_env !! "PAYRIFF_CALLBACK_URL") "".

(** *** [constructor(config: PayriffConfig = {})] *)

Definition constructor (config : PayriffConfig.t) : PayriffSDK :=
  let baseUrl := JS.or (PayriffConfig.baseUrl config) DEFAULT_BASE_URL in
  let secretKey := JS.or (PayriffConfig.secretKey config) DEFAULT_SECRET_KEY in
  let defaultLanguage :=
    JS.or (PayriffConfig.defaultLanguage config) DEFAULT_LANGUAGE in
  let defaultCurrency :=
    JS.or (PayriffConfig.defaultCurrency config) DEFAULT_CURRENCY in
  let defaultCallbackUrl :=
    JS.or (PayriffConfig.defaultCallbackUrl config) DEFAULT_CALLBACK_URL in
  {| baseUrl := baseUrl;
     secretKey := secretKey;
     defaultLanguage := defaultLanguage;
     defaultCurrency := defaultCurrency;
     defaultCallbackUrl := defaultCallbackUrl;
     headers := <["Content-Type" := "application/json"]>
                  (<["Authorization" := secretKey]> ∅) |}.

(** *** The two host calls of [makeRequest] *)

(** [await fetch(url, init)]: the call is logged; a transport failure rejects. *)
Definition fetch (url : string) (init : RequestInit) : M Response :=
  λ s, let call := {| url := url; init := init |} in
       match transport (network s) call with
       | NetworkFailure message => (Rejected (TypeError message), logged call s)
       | Delivered r => (Fulfilled r, logged call s)
       end.

(** [response.json()]: parses the body text whatever the status is. *)
Definition Response_json (response : Response) : M Json :=
  λ s, match JSON_parse (text response) with
       | Some j => (Fulfilled j, s)
       | None => (Rejected SyntaxError, s)
       end.

(** *** [private async makeRequest<T>(endpoint, method, body?)]

    [...(body && { body: JSON.stringify(body) })] adds the [body] key only
    when [body] is given: an object reference is truthy, [undefined] spreads
    nothing. *)
Definition makeRequest (endpoint : string) (method : Method)
    (body : option nat) : M Json :=
  let! self := get_this in
  let! serialized :=
    match body with
    | Some l => let! o := load l in ret (Some (JSON_stringify o))
    | None => ret None
    end in
  let! response :=
    fetch (baseUrl self +:+ endpoint)
          {| method := method;
             init_headers := headers self;
             body := serialized |} in
  Response_json response.

(** *** [async createOrder(request)] *)

(** The object expression bound to [defaultedRequest]. *)
Definition createOrder_defaultedRequest (self : PayriffSDK)
    (request : JS.object) : JS.object :=
  JS.spread
    (JS.literal
       [("language", VStr (Language_str (defaultLanguage self)));
        ("currency", VStr (Currency_str (defaultCurrency self)));
        ("callbackUrl", VStr (defaultCallbackUrl self));
        ("cardSave", VBool false);
        ("operation", VStr "PURCHASE")])
    request.

Definition createOrder (request : nat) : M Json :=
  let! self := get_this in
  let! request_record := load request in
  let! defaultedRequest :=
    alloc (createOrder_defaultedRequest self request_record) in
  makeRequest "/orders" POST (Some defaultedRequest).

(** *** [async getOrderInfo(orderId)] *)
Definition getOrderInfo (orderId : string) : M Json :=
  makeRequest ("/orders/" +:+ orderId) GET None.

(** *** [async refund(request)] *)
Definition refund (request : nat) : M Json :=
  makeRequest "/refund" POST (Some request).

(** *** [async complete(request)] *)
Definition complete (request : nat) : M Json :=
  makeRequest "/complete" POST (Some request).

(** *** [async autoPay(request)] *)

(** The object expression bound to [defaultedRequest]. *)
Definition autoPay_defaultedRequest (self : PayriffSDK)
    (request : JS.object) : JS.object :=
  JS.spread
    (JS.literal
       [("currency", VStr (Currency_str (defaultCurrency self)));
        ("callbackUrl", VStr (defaultCallbackUrl self));
        ("operation", VStr "PURCHASE")])
    request.

Definition autoPay (request : nat) : M Json :=
  let! self := get_this in
  let! request_record := load request in
  let! defaultedRequest :=
    alloc (autoPay_defaultedRequest self request_record) in
  makeRequest "/autoPay" POST (Some defaultedRequest).

(** *** [isSuccessful(code)] *)
Definition isSuccessful (code : string) : bool :=
  String.eqb code "00000" || String.eqb code "00".

(** *** The public interface as a whole *)

(** A call of one of the six public methods, with its argument. *)
Inductive Call : Type :=
| CreateOrder (request : nat)
| GetOrderInfo (orderId : string)
| Refund (request : nat)
| Complete (request : nat)
| AutoPay (request : nat)
| IsSuccessful (code : string).

(** What a call gives back: a response envelope or a boolean. *)
Inductive Returned : Type :=
| Envelope (j : Json)
| Boolean (b : bool).

Definition invoke (c : Call) : M Returned :=
  match c with
  | CreateOrder request => let! j := createOrder request in ret (Envelope j)
  | GetOrderInfo orderId => let! j := getOrderInfo orderId in ret (Envelope j)
  | Refund request => let! j := refund request in ret (Envelope j)
  | Complete request => let! j := complete request in ret (Envelope j)
  | AutoPay request => let! j := autoPay request in ret (Envelope j)
  | IsSuccessful code => ret (Boolean (isSuccessful code))
  end.

(** What happens to a client over its life: the program calls a method, or
    does anything it likes with the records it holds.  The fields of the
    client are private, so the program does not write them. *)
Inductive Step : Type :=
| Invoke (c : Call)
| Program (f : gmap nat JS.object → gmap nat JS.object).

Definition step (st : Step) (s : State) : State :=
  match st with
  | Invoke c => (invoke c s).2
  | Program f =>
      {| this := this s; objects := f (objects s); network := network s |}
  end.

Definition run (script : list Step) (s : State) : State :=
  foldl (λ s st, step st s) s script.

(** The state right after [new PayriffSDK(config)]. *)
Definition constructed (config : PayriffConfig.t)
    (objs : gmap nat JS.object) (log : list FetchCall) : State :=
  {| this := constructor config; objects := objs; network := log |}.

(** How a promise of [makeRequest] settles, given the transport's answer. *)
Definition settle (r : FetchResult) : settled Json :=
  match r with
  | NetworkFailure message => Rejected (TypeError message)
  | Delivered response =>
      match JSON_parse (text response) with
      | Some j => Fulfilled j
      | None => Rejected SyntaxError
      end
  end.

(** The call [makeRequest] hands to [fetch]. *)
Definition call_of (s : State) (endpoint : string) (method : Method)
    (serialized : option string) : FetchCall :=
  {| url := baseUrl (this s) +:+ endpoint;
     init := {| method := method;
                init_headers := headers (this s);
                body := serialized |} |}.

(** The calls in [log] all carry the headers [h]. *)
Definition carry (h : gmap string string) (log : list FetchCall) : Prop :=
  Forall (λ call, init_headers (init call) = h) log.

End Client.

(** ** What a call sends, read off the log *)

Section Observations.
Context `{Host}.

(** The calls a method hands to [fetch] when it is called in [s]: what the
    log has gained. *)
Definition issued (c : Call) (s : State) : list FetchCall :=
  drop (length (network s)) (network (invoke c s).2).

(** The record a call takes by reference, if it takes one. *)
Definition argument (c : Call) : option nat :=
  match c with
  | CreateOrder request | Refund request | Complete request
  | AutoPay request => Some request
  | GetOrderInfo _ | IsSuccessful _ => None
  end.

(** The call a method builds in [s]: none for [isSuccessful], none when the
    argument is not in the store. *)
Definition request_of (c : Call) (s : State) : option FetchCall :=
  match c with
  | CreateOrder request =>
      req ← objects s !! request;
      Some (call_of s "/orders" POST
              (Some (JSON_stringify
                       (createOrder_defaultedRequest (this s) req))))
  | GetOrderInfo orderId =>
      Some (call_of s ("/orders/" +:+ orderId) GET None)
  | Refund request =>
      req ← objects s !! request;
      Some (call_of s "/refund" POST (Some (JSON_stringify req)))
  | Complete request =>
      req ← objects s !! request;
      Some (call_of s "/complete" POST (Some (JSON_stringify req)))
  | AutoPay request =>
      req ← objects s !! request;
      Some (call_of s "/autoPay" POST
              (Some (JSON_stringify
                       (autoPay_defaultedRequest (this s) req))))
  | IsSuccessful _ => None
  end.

(** The two shapes of call the class can produce for a client [self]: a GET
    of one order without a body, or a POST with a body to one of four fixed
    paths; both with the client's headers. *)
Definition client_call (self : PayriffSDK) (call : FetchCall) : Prop :=
  init_headers (init call) = headers self
  ∧ ((∃ orderId, url call = baseUrl self +:+ "/orders/" +:+ orderId
                 ∧ method (init call) = GET
                 ∧ body (init call) = None)
     ∨ (∃ path text,
           path ∈ ["/orders"; "/refund"; "/complete"; "/autoPay"]
           ∧ url call = baseUrl self +:+ path
           ∧ method (init call) = POST
           ∧ body (init call) = Some text)).

End Observations.

(** ** The first version of the class

    [src/unnamed/part_000] is the class before default values were added:
    the configuration has two fields, the secret key falls back to the
    environment inside the constructor, and [createOrder] and [autoPay] pass
    the caller's record on as it is.  The instance is an explicit argument
    here, since [this] in the store is an instance of the later class. *)

Module Legacy.

Record PayriffConfig : Type := {
  config_baseUrl : option string;
  config_secretKey : option string;
}.

Record PayriffSDK : Type := {
  baseUrl : string;
  headers : gmap string string;
  secretKey : string;
}.

(** [a || b] where [b] may itself be [undefined]. *)
Definition or_undefined {A} `{Truthy A} (x y : option A) : option A :=
  match x with
  | Some a => if truthy a then Some a else y
  | None => y
  end.

Section Client.
Context `{Host}.

Definition DEFAULT_BASE_URL : string := "https://api.payriff.com/api/v3".

(** [config.secretKey || process.env.PAYRIFF_SECRET_KEY || ''] associates to
    the left. *)
Definition constructor (config : PayriffConfig) : PayriffSDK :=
  let baseUrl := JS.or (config_baseUrl config) DEFAULT_BASE_URL in
  let secretKey :=
    JS.or (or_undefined (config_secretKey config)
                        (process_env !! "PAYRIFF_SECRET_KEY")) "" in
  {| baseUrl := baseUrl;
     secretKey := secretKey;
     headers := <["Content-Type" := "application/json"]>
                  (<["Authorization" := secretKey]> ∅) |}.

Definition makeRequest (self : PayriffSDK) (endpoint : string)
    (method : Method) (body : option nat) : M Json :=
  let! serialized :=
    match body with
    | Some l => let! o := load l in ret (Some (JSON_stringify o))
    | None => ret None
    end in
  let! response :=
    fetch (baseUrl self +:+ endpoint)
          {| method := method;
             init_headers := headers self;
             body := serialized |} in
  Response_json response.

Definition createOrder (self : PayriffSDK) (request : nat) : M Json :=
  makeRequest self "/orders" POST (Some request).

Definition getOrderInfo (self : PayriffSDK) (orderId : string) : M Json :=
  makeRequest self ("/orders/" +:+ orderId) GET None.

Definition refund (self : PayriffSDK) (request : nat) : M Json :=
  makeRequest self "/refund" POST (Some request).

Definition complete (self : PayriffSDK) (request : nat) : M Json :=
  makeRequest self "/complete" POST (Some request).

Definition autoPay (self : PayriffSDK) (request : nat) : M Json :=
  makeRequest self "/autoPay" POST (Some request).

Definition isSuccessful (code : string) : bool :=
  String.eqb code "00000" || String.eqb code "00".

End Client.

End Legacy.

(** ** The example program, [examples/index.ts]

    The program builds a client from an empty configuration and awaits the
    five methods in turn, each on a record it has just written.  An [await]
    of a rejected promise ends the program; [console.log] is left out. *)

Section Example.
Context `{Host}.









End Example.

(** ** A sample host and sample records

    A small concrete runtime on which the statements below are exercised:
    no environment variables, a serialiser that lists the property names, a
    parser that accepts texts opening with a brace, and a gateway that
    answers a GET with status 500 and an empty document and a POST with
    status 200 and an HTML page. *)

Definition sample_stringify (o : JS.object) : string :=
  "{" +:+ String.concat "," (map_to_list o).*1 +:+ "}".

Definition sample_parse (t : string) : option string :=
  if String.prefix "{" t then Some t else None.

Definition sample_transport (log : list FetchCall) (call : FetchCall)
    : FetchResult :=
  match method (init call) with
  | GET => Delivered {| status := 500; text := "{}" |}
  | POST => Delivered {| status := 200; text := "<html>Bad Gateway</html>" |}
  end.

Definition sample_host : Host :=
  {| Json := string;
     process_env := ∅;
     JSON_stringify := sample_stringify;
     JSON_parse := sample_parse;
     transport := sample_transport |}.

(** [{amount: 0, description: "Product purchase", cardSave: false}] *)
Definition sample_order : JS.object :=
  JS.literal [("amount", VNum 0);
              ("description", VStr "Product purchase");
              ("cardSave", VBool false)].

(** [{amount: 1, description: "d", language: undefined}] *)
Definition sample_order_undefined : JS.object :=
  JS.literal [("amount", VNum 1);
              ("description", VStr "d");
              ("language", VUndefined)].

(** [{orderId: "X", amount: 10.99}] *)
Definition sample_refund : JS.object :=
  JS.literal [("orderId", VStr "X"); ("amount", VNum 0x1.5fae147ae147bp+3)].

(** [{cardUuid: "U", amount: 0.01, description: "Subscription renewal",
      currency: "USD"}] *)
Definition sample_autoPay : JS.object :=
  JS.literal [("cardUuid", VStr "U");
              ("amount", VNum 0x1.47ae147ae147bp-7);
              ("description", VStr "Subscription renewal");
              ("currency", VStr "USD")].

(** [new PayriffSDK({secretKey: "S"})] with the four records in the store. *)
Definition sample_config : PayriffConfig.t :=
  PayriffConfig.mk None (Some "S") None None None.

Definition sample_state : State :=
  constructed (H := sample_host) sample_config
    (<[3 := sample_order_undefined]>
       (<[2 := sample_autoPay]>
          (<[1 := sample_refund]> (<[0 := sample_order]> ∅))))
    [].

(** A host whose network is down, and one whose gateway answers every call
    with status 200 and an empty document. *)
Definition offline_host : Host :=
  {| Json := string;
     process_env := ∅;
     JSON_stringify := sample_stringify;
     JSON_parse := sample_parse;
     transport := λ _ _, NetworkFailure "fetch failed" |}.

Definition online_host : Host :=
  {| Json := string;
     process_env := <["PAYRIFF_CALLBACK_URL" := "https://shop.example/cb"]> ∅;
     JSON_stringify := sample_stringify;
     JSON_parse := sample_parse;
     transport := λ _ _, Delivered {| status := 200; text := "{}" |} |}.


(** The sample client later in its life: one call in the log, one record in
    the store. *)
Definition sample_state_later : State :=
  constructed (H := sample_host) sample_config
    (<[1 := sample_refund]> ∅)
    [{| url := "https://api.payriff.com/api/v3/orders/X";
        init := {| method := GET;
                   init_headers := ∅;
                   body := None |} |}].


(** ** Properties *)

Section Properties.
Context `{Host}.

(** *** Objects *)

Lemma lookup_spread (target source : JS.object) (k : string) :
  JS.spread target source !! k =
  match source !! k with Some v => Some v | None => target !! k end.
Proof.
  unfold JS.spread.
  apply (map_fold_weak_ind (λ (r : JS.object) (m : JS.object),
    r !! k = match m !! k with Some v => Some v | None => target !! k end)).
  - by rewrite lookup_empty.
  - intros i x m r _ IH. destruct (decide (i = k)) as [-> | Hne].
    + by rewrite !lookup_insert_eq.
    + by rewrite !lookup_insert_ne.
Qed.

Lemma spread_present (target source : JS.object) k v :
  source !! k = Some v → JS.spread target source !! k = Some v.
Proof. intros Hk. by rewrite lookup_spread, Hk. Qed.

Lemma spread_absent (target source : JS.object) k :
  source !! k = None → JS.spread target source !! k = target !! k.
Proof. intros Hk. by rewrite lookup_spread, Hk. Qed.

(** *** One run of [makeRequest] *)

Lemma makeRequest_no_body endpoint m s :
  makeRequest endpoint m None s =
  let c := call_of s endpoint m None in
  (settle (transport (network s) c), logged c s).
Proof.
  unfold makeRequest, bind, get_this, ret, fetch, Response_json, call_of, settle.
  simpl. destruct (transport _ _) as [msg | r]; [done |].
  by destruct (JSON_parse (text r)).
Qed.

Lemma makeRequest_body endpoint m l o s :
  objects s !! l = Some o →
  makeRequest endpoint m (Some l) s =
  let c := call_of s endpoint m (Some (JSON_stringify o)) in
  (settle (transport (network s) c), logged c s).
Proof.
  intros Hl.
  unfold makeRequest, bind, get_this, load, ret, fetch, Response_json,
    call_of, settle.
  simpl. rewrite Hl. simpl. destruct (transport _ _) as [msg | r]; [done |].
  by destruct (JSON_parse (text r)).
Qed.

Lemma makeRequest_dangling endpoint m l s :
  objects s !! l = None →
  makeRequest endpoint m (Some l) s = (Rejected (Unallocated l), s).
Proof.
  intros Hl. unfold makeRequest, bind, get_this, load. simpl. by rewrite Hl.
Qed.

Lemma fresh_unallocated (s : State) :
  objects s !! fresh (dom (objects s)) = None.
Proof. apply not_elem_of_dom, is_fresh. Qed.

(** A method that backfills defaults: dereference, build the new record,
    send it. *)
Lemma defaulting_run (build : PayriffSDK → JS.object → JS.object)
    endpoint request req s :
  objects s !! request = Some req →
  (let! self := get_this in
   let! request_record := load request in
   let! defaultedRequest := alloc (build self request_record) in
   makeRequest endpoint POST (Some defaultedRequest)) s =
  let d := build (this s) req in
  let c := call_of s endpoint POST (Some (JSON_stringify d)) in
  (settle (transport (network s) c), logged c (alloc d s).2).
Proof.
  intros Hreq. unfold bind at 1 2 3, get_this, load. rewrite Hreq.
  unfold alloc at 1. cbv beta iota zeta.
  erewrite makeRequest_body by apply lookup_insert_eq. done.
Qed.

Lemma defaulting_dangling (build : PayriffSDK → JS.object → JS.object)
    endpoint request s :
  objects s !! request = None →
  (let! self := get_this in
   let! request_record := load request in
   let! defaultedRequest := alloc (build self request_record) in
   makeRequest endpoint POST (Some defaultedRequest)) s =
  (Rejected (Unallocated request), s).
Proof.
  intros Hreq. unfold bind at 1 2 3, get_this, load. by rewrite Hreq.
Qed.

(** *** Result codes *)

(** X17. Of the ten codes in the table, [isSuccessful] accepts the first two
    only; ["APPROVED"] and ["PREAUTH-APPROVED"] do not count as a success. *)
Lemma isSuccessful_ResultCodes :
  filter (λ code, isSuccessful code = true)
    [ResultCodes.SUCCESS; ResultCodes.SUCCESS_GATEWAY;
     ResultCodes.SUCCESS_GATEWAY_APPROVE;
     ResultCodes.SUCCESS_GATEWAY_PREAUTH_APPROVE;
     ResultCodes.WARNING; ResultCodes.ERROR;
     ResultCodes.INVALID_PARAMETERS; ResultCodes.UNAUTHORIZED;
     ResultCodes.TOKEN_NOT_PRESENT; ResultCodes.INVALID_TOKEN]
  = [ResultCodes.SUCCESS; ResultCodes.SUCCESS_GATEWAY].
Proof. reflexivity. Qed.

(** C2. [isSuccessful code] is true exactly when [code] is ["00000"] or
    ["00"]; in particular it is false on the empty string and on
    ["15400"]. *)
Theorem isSuccessful_iff :
  (∀ code : string,
      isSuccessful code = true ↔ code = "00000" ∨ code = "00")
  ∧ isSuccessful "" = false
  ∧ isSuccessful "15400" = false.
Proof.
  split; [| split; reflexivity].
  intros code. unfold isSuccessful.
  rewrite orb_true_iff, !String.eqb_eq. reflexivity.
Qed.


(** *** The records the defaulting methods build *)

Ltac literal_lookup :=
  unfold JS.literal; cbn [foldl fst snd];
  repeat first
    [ rewrite lookup_insert_eq
    | rewrite lookup_insert_ne by (done || congruence)
    | rewrite lookup_empty ].

Lemma createOrder_defaultedRequest_lookup self (req : JS.object) k :
  createOrder_defaultedRequest self req !! k =
  match req !! k with
  | Some v => Some v
  | None =>
      if decide (k = "language")
      then Some (VStr (Language_str (defaultLanguage self)))
      else if decide (k = "currency")
      then Some (VStr (Currency_str (defaultCurrency self)))
      else if decide (k = "callbackUrl")
      then Some (VStr (defaultCallbackUrl self))
      else if decide (k = "cardSave") then Some (VBool false)
      else if decide (k = "operation") then Some (VStr "PURCHASE")
      else None
  end.
Proof.
  unfold createOrder_defaultedRequest. rewrite lookup_spread.
  destruct (req !! k); [done |].
  repeat (case_decide; [subst k; by literal_lookup |]).
  by literal_lookup.
Qed.

Lemma autoPay_defaultedRequest_lookup self (req : JS.object) k :
  autoPay_defaultedRequest self req !! k =
  match req !! k with
  | Some v => Some v
  | None =>
      if decide (k = "currency")
      then Some (VStr (Currency_str (defaultCurrency self)))
      else if decide (k = "callbackUrl")
      then Some (VStr (defaultCallbackUrl self))
      else if decide (k = "operation") then Some (VStr "PURCHASE")
      else None
  end.
Proof.
  unfold autoPay_defaultedRequest. rewrite lookup_spread.
  destruct (req !! k); [done |].
  repeat (case_decide; [subst k; by literal_lookup |]).
  by literal_lookup.
Qed.

(** C1 (as amended). [createOrder] on a stored record [req] sends one POST
    to [/orders] whose body serialises the merge [d] of [req] over the
    defaults: every property [req] has keeps the caller's value in [d],
    whatever the value (so [amount: 0] and [cardSave: false] stay, and so
    does a property the caller wrote with the value [undefined]); each of
    [language], [currency], [callbackUrl], [cardSave], [operation] that [req]
    does not have holds the client's default ([false] and ["PURCHASE"] for
    the last two); only properties absent from [req] are defaulted. *)
Theorem createOrder_merges_defaults (s : State) (request : nat)
    (req : JS.object) :
  objects s !! request = Some req →
  let d := createOrder_defaultedRequest (this s) req in
  network (createOrder request s).2 =
    (network s ++ [call_of s "/orders" POST (Some (JSON_stringify d))])%list
  ∧ (∀ k v, req !! k = Some v → d !! k = Some v)
  ∧ (req !! "amount" = Some (VNum 0) → d !! "amount" = Some (VNum 0))
  ∧ (req !! "cardSave" = Some (VBool false) →
     d !! "cardSave" = Some (VBool false))
  ∧ (∀ k, req !! k = Some VUndefined → d !! k = Some VUndefined)
  ∧ (req !! "language" = None →
     d !! "language" = Some (VStr (Language_str (defaultLanguage (this s)))))
  ∧ (req !! "currency" = None →
     d !! "currency" = Some (VStr (Currency_str (defaultCurrency (this s)))))
  ∧ (req !! "callbackUrl" = None →
     d !! "callbackUrl" = Some (VStr (defaultCallbackUrl (this s))))
  ∧ (req !! "cardSave" = None → d !! "cardSave" = Some (VBool false))
  ∧ (req !! "operation" = None → d !! "operation" = Some (VStr "PURCHASE"))
  ∧ (∀ k, d !! k ≠ req !! k → req !! k = None).
Proof.
  intros Hreq d.
  assert (Hwins : ∀ k v, req !! k = Some v → d !! k = Some v).
  { intros k v Hk. subst d.
    by rewrite createOrder_defaultedRequest_lookup, Hk. }
  split.
  { unfold createOrder.
    rewrite (defaulting_run createOrder_defaultedRequest _ _ req) by done.
    done. }
  split_and!; auto;
    try (intros Hk; subst d;
         by rewrite createOrder_defaultedRequest_lookup, Hk).
  intros k Hne.
  destruct (req !! k) as [v |] eqn:Hk; [| done].
  by rewrite (Hwins k v Hk) in Hne.
Qed.

(** C3. [autoPay] on a stored record [req] sends one POST to [/autoPay]
    whose body serialises the merge [d] of [req] over three defaults: a
    missing [currency] is the client's default currency, a missing
    [callbackUrl] the default callback URL, a missing [operation] is
    ["PURCHASE"]; [language] is not added, nor is any other property; and
    every property [req] has keeps the caller's value. *)
Theorem autoPay_merges_defaults (s : State) (request : nat)
    (req : JS.object) :
  objects s !! request = Some req →
  let d := autoPay_defaultedRequest (this s) req in
  network (autoPay request s).2 =
    (network s ++ [call_of s "/autoPay" POST (Some (JSON_stringify d))])%list
  ∧ (req !! "currency" = None →
     d !! "currency" = Some (VStr (Currency_str (defaultCurrency (this s)))))
  ∧ (req !! "callbackUrl" = None →
     d !! "callbackUrl" = Some (VStr (defaultCallbackUrl (this s))))
  ∧ (req !! "operation" = None → d !! "operation" = Some (VStr "PURCHASE"))
  ∧ d !! "language" = req !! "language"
  ∧ (∀ k, k ∉ ["currency"; "callbackUrl"; "operation"] →
          d !! k = req !! k)
  ∧ (∀ k v, req !! k = Some v → d !! k = Some v).
Proof.
  intros Hreq d. split.
  { unfold autoPay.
    rewrite (defaulting_run autoPay_defaultedRequest _ _ req) by done. done. }
  split_and!;
    try (intros Hk; subst d;
         by rewrite autoPay_defaultedRequest_lookup, Hk).
  - subst d. rewrite autoPay_defaultedRequest_lookup.
    by destruct (req !! "language").
  - intros k Hk. subst d. rewrite autoPay_defaultedRequest_lookup.
    destruct (req !! k); [done |].
    repeat (case_decide; [subst k; exfalso; apply Hk; set_solver |]). done.
  - intros k v Hk. subst d. by rewrite autoPay_defaultedRequest_lookup, Hk.
Qed.

(** C5. [getOrderInfo X] hands [fetch] exactly one call: a GET to the base
    URL followed by [/orders/X], with the client's headers and no body; the
    store of records is left as it was. *)
Theorem getOrderInfo_request (s : State) (X : string) :
  network (getOrderInfo X s).2 =
    (network s ++
      [{| url := baseUrl (this s) +:+ "/orders/" +:+ X;
          init := {| method := GET;
                     init_headers := headers (this s);
                     body := None |} |}])%list
  ∧ objects (getOrderInfo X s).2 = objects s.
Proof.
  unfold getOrderInfo. rewrite makeRequest_no_body. done.
Qed.

(** C6. [refund] on a stored record [req] hands [fetch] one POST to
    [/refund] whose body is the serialisation of [req] itself: no merge, no
    new record.  [complete] does the same against [/complete]. *)
Theorem refund_complete_request (s : State) (request : nat)
    (req : JS.object) :
  objects s !! request = Some req →
  (network (refund request s).2 =
     (network s ++
       [{| url := baseUrl (this s) +:+ "/refund";
           init := {| method := POST;
                      init_headers := headers (this s);
                      body := Some (JSON_stringify req) |} |}])%list
   ∧ objects (refund request s).2 = objects s)
  ∧ (network (complete request s).2 =
       (network s ++
         [{| url := baseUrl (this s) +:+ "/complete";
             init := {| method := POST;
                        init_headers := headers (this s);
                        body := Some (JSON_stringify req) |} |}])%list
     ∧ objects (complete request s).2 = objects s).
Proof.
  intros Hreq. unfold refund, complete.
  rewrite !(makeRequest_body _ _ _ req) by done. done.
Qed.

(** *** Every public call, one shape *)

Lemma bind_ret_run {A B} (f : A → B) (m : M A) (s : State) :
  (let! a := m in ret (f a)) s = (map_settled f (m s).1, (m s).2).
Proof. unfold bind, ret. by destruct (m s) as [[a | e] s']. Qed.

(** A call either answers at once without touching anything
    ([isSuccessful]), or stops on a reference that is not in the store, or
    hands [fetch] exactly one call carrying the client's headers and settles
    as the transport and the parser decide; in every case [this] and the
    records already in the store stay as they were. *)
Lemma invoke_cases (c : Call) (s : State) :
  (∃ b, invoke c s = (Fulfilled (Boolean b), s))
  ∨ (∃ l, invoke c s = (Rejected (Unallocated l), s))
  ∨ (∃ call objs,
        objects s ⊆ objs
        ∧ init_headers (init call) = headers (this s)
        ∧ invoke c s =
            (map_settled Envelope (settle (transport (network s) call)),
             {| this := this s;
                objects := objs;
                network := network s ++ [call] |})).
Proof.
  destruct c as [request | orderId | request | request | request | code];
    unfold invoke; rewrite ?bind_ret_run.
  - unfold createOrder.
    destruct (objects s !! request) as [req |] eqn:Hreq.
    + rewrite (defaulting_run createOrder_defaultedRequest _ _ req) by done.
      right; right.
      set (d := createOrder_defaultedRequest (this s) req).
      exists (call_of s "/orders" POST (Some (JSON_stringify d))),
        (<[fresh (dom (objects s)) := d]> (objects s)).
      split_and!; [| done | done].
      apply insert_subseteq, fresh_unallocated.
    + rewrite defaulting_dangling by done. right; left. by eexists.
  - unfold getOrderInfo. rewrite makeRequest_no_body.
    right; right.
    by exists (call_of s ("/orders/" +:+ orderId) GET None), (objects s).
  - unfold refund.
    destruct (objects s !! request) as [req |] eqn:Hreq.
    + rewrite (makeRequest_body _ _ _ req) by done.
      right; right.
      by exists (call_of s "/refund" POST (Some (JSON_stringify req))),
        (objects s).
    + rewrite makeRequest_dangling by done. right; left. by eexists.
  - unfold complete.
    destruct (objects s !! request) as [req |] eqn:Hreq.
    + rewrite (makeRequest_body _ _ _ req) by done.
      right; right.
      by exists (call_of s "/complete" POST (Some (JSON_stringify req))),
        (objects s).
    + rewrite makeRequest_dangling by done. right; left. by eexists.
  - unfold autoPay.
    destruct (objects s !! request) as [req |] eqn:Hreq.
    + rewrite (defaulting_run autoPay_defaultedRequest _ _ req) by done.
      right; right.
      set (d := autoPay_defaultedRequest (this s) req).
      exists (call_of s "/autoPay" POST (Some (JSON_stringify d))),
        (<[fresh (dom (objects s)) := d]> (objects s)).
      split_and!; [| done | done].
      apply insert_subseteq, fresh_unallocated.
    + rewrite defaulting_dangling by done. right; left. by eexists.
  - left. by eexists.
Qed.

(** The call that was logged decides how the promise settles. *)
Lemma invoke_settles (c : Call) (s : State) (call : FetchCall) :
  network (invoke c s).2 = (network s ++ [call])%list →
  (invoke c s).1 = map_settled Envelope (settle (transport (network s) call)).
Proof.
  intros Hlog.
  destruct (invoke_cases c s) as [[b Hc] | [[l Hc] | (call' & objs & _ & _ & Hc)]];
    rewrite Hc in Hlog |- *; simpl in Hlog |- *.
  - apply (f_equal length) in Hlog. rewrite length_app in Hlog.
    simpl in Hlog. lia.
  - apply (f_equal length) in Hlog. rewrite length_app in Hlog.
    simpl in Hlog. lia.
  - apply app_inv_head in Hlog. by inversion Hlog.
Qed.

(** C7. Whatever call a method handed to [fetch], if the transport
    delivers a response with any status code [code] and a body that parses
    to [j], the method's promise is fulfilled with [j] itself: the status
    plays no part, nothing is thrown, and [j] is not looked into. *)
Theorem status_is_passed_over (c : Call) (s : State) (call : FetchCall)
    (code : nat) (t : string) (j : Json) :
  network (invoke c s).2 = (network s ++ [call])%list →
  transport (network s) call = Delivered {| status := code; text := t |} →
  JSON_parse t = Some j →
  (invoke c s).1 = Fulfilled (Envelope j).
Proof.
  intros Hlog Hnet Hparse.
  rewrite (invoke_settles c s call Hlog), Hnet. simpl. by rewrite Hparse.
Qed.

(** C8. Whatever call a method handed to [fetch], if the body of the
    delivered response is not valid JSON, the method's promise is rejected
    (with the parser's [SyntaxError]); no envelope is returned. *)
Theorem invalid_json_rejects (c : Call) (s : State) (call : FetchCall)
    (code : nat) (t : string) :
  network (invoke c s).2 = (network s ++ [call])%list →
  transport (network s) call = Delivered {| status := code; text := t |} →
  JSON_parse t = None →
  (invoke c s).1 = Rejected SyntaxError
  ∧ ∀ r, (invoke c s).1 ≠ Fulfilled r.
Proof.
  intros Hlog Hnet Hparse.
  rewrite (invoke_settles c s call Hlog), Hnet. simpl. by rewrite Hparse.
Qed.

(** C9. No public method writes to a record that is in the store when it is
    called, its own argument included: each such record is found unchanged
    afterwards (a backfilled record is a new one).  And no public method
    changes a field of the client: [this] is the same afterwards. *)
Theorem invoke_mutates_nothing (c : Call) (s : State) :
  (∀ l o, objects s !! l = Some o → objects (invoke c s).2 !! l = Some o)
  ∧ this (invoke c s).2 = this s.
Proof.
  destruct (invoke_cases c s) as [[b Hc] | [[l Hc] | (call & objs & Hsub & _ & Hc)]];
    rewrite Hc; simpl; split; try done.
  intros l o Hl. by eapply lookup_weaken.
Qed.

(** *** The life of a client *)

Lemma no_new_call h (log : list FetchCall) :
  ∃ new, log = (log ++ new)%list ∧ carry h new.
Proof. exists []. split; [by rewrite app_nil_r | constructor]. Qed.

Lemma step_invariant (st : Step) (s : State) :
  this (step st s) = this s
  ∧ ∃ new, network (step st s) = (network s ++ new)%list
           ∧ carry (headers (this s)) new.
Proof.
  destruct st as [c | f]; simpl.
  - destruct (invoke_cases c s)
      as [[b Hc] | [[l Hc] | (call & objs & _ & Hh & Hc)]];
      rewrite Hc; simpl; (split; [done |]).
    + apply no_new_call.
    + apply no_new_call.
    + exists [call]. split; [done |]. by apply Forall_singleton.
  - split; [done |]. apply no_new_call.
Qed.

Lemma run_invariant (script : list Step) (s : State) :
  this (run script s) = this s
  ∧ ∃ new, network (run script s) = (network s ++ new)%list
           ∧ carry (headers (this s)) new.
Proof.
  revert s. induction script as [| st script IH]; intros s.
  - split; [done |]. apply no_new_call.
  - change (run (st :: script) s) with (run script (step st s)).
    destruct (IH (step st s)) as (Hthis & new2 & Hlog2 & Hh2).
    destruct (step_invariant st s) as (Hthis1 & new1 & Hlog1 & Hh1).
    split; [congruence |].
    exists (new1 ++ new2)%list. split.
    + by rewrite Hlog2, Hlog1, app_assoc.
    + apply Forall_app. split; [done |]. by rewrite <- Hthis1.
Qed.

Lemma constructor_Authorization (config : PayriffConfig.t) :
  headers (constructor config) !! "Authorization" =
  Some (JS.or (PayriffConfig.secretKey config) DEFAULT_SECRET_KEY).
Proof. unfold constructor. simpl. by rewrite lookup_insert_ne. Qed.

Lemma or_truthy_string (S d : string) : S ≠ "" → JS.or (Some S) d = S.
Proof.
  intros HS. unfold JS.or, truthy, string_truthy.
  by apply String.eqb_neq in HS as ->.
Qed.

Lemma requests_after_construction config objs log script :
  ∃ new,
    drop (length log) (network (run script (constructed config objs log))) = new
    ∧ carry (headers (constructor config)) new.
Proof.
  destruct (run_invariant script (constructed config objs log))
    as (_ & new & Hlog & Hh).
  exists new. simpl in Hlog. rewrite Hlog. by rewrite drop_app_length.
Qed.

(** C4. Take a client built from [config], any store and any earlier log,
    and let the program run any script of method calls and of its own
    writes to its records.  If [config] gives a non-empty secret key [S],
    every call the client hands to [fetch] has the header [Authorization]
    equal to [S], as it is.  If [config] gives no secret key and the
    environment has no [PAYRIFF_SECRET_KEY], the constructor still yields a
    client, its secret key is the empty string, and every call has
    [Authorization] equal to the empty string. *)
Theorem Authorization_is_the_secret_key (config : PayriffConfig.t)
    (objs : gmap nat JS.object) (log : list FetchCall) (script : list Step) :
  let sent :=
    drop (length log) (network (run script (constructed config objs log))) in
  (∀ S, PayriffConfig.secretKey config = Some S → S ≠ "" →
        Forall (λ call, init_headers (init call) !! "Authorization" = Some S)
               sent)
  ∧ (PayriffConfig.secretKey config = None →
     process_env !! "PAYRIFF_SECRET_KEY" = None →
     secretKey (constructor config) = ""
     ∧ headers (constructor config) !! "Authorization" = Some ""
     ∧ Forall (λ call, init_headers (init call) !! "Authorization" = Some "")
              sent).
Proof.
  intros sent.
  destruct (requests_after_construction config objs log script)
    as (new & Hsent & Hh).
  fold sent in Hsent. rewrite Hsent. clear Hsent sent.
  pose proof (constructor_Authorization config) as Hauth.
  split.
  - intros S Hcfg HS. rewrite Hcfg, or_truthy_string in Hauth by done.
    eapply Forall_impl; [exact Hh |]. intros call ->. exact Hauth.
  - intros Hcfg Henv.
    assert (Hkey : JS.or (PayriffConfig.secretKey config) DEFAULT_SECRET_KEY = "").
    { rewrite Hcfg. unfold DEFAULT_SECRET_KEY. by rewrite Henv. }
    rewrite Hkey in Hauth. split_and!; [exact Hkey | exact Hauth |].
    eapply Forall_impl; [exact Hh |]. intros call ->. exact Hauth.
Qed.

(** C10. An empty string given for [secretKey] or for [baseUrl] builds the
    very client that a configuration without that field builds: the secret
    key is then the environment fallback [DEFAULT_SECRET_KEY] and the base
    URL the vendor endpoint [DEFAULT_BASE_URL], since each field is resolved
    with [||]. *)
Theorem empty_string_is_absent (b k u : option string)
    (l : option Language) (c : option Currency) :
  constructor (PayriffConfig.mk b (Some "") l c u) =
    constructor (PayriffConfig.mk b None l c u)
  ∧ secretKey (constructor (PayriffConfig.mk b (Some "") l c u)) =
      JS.or (process_env !! "PAYRIFF_SECRET_KEY") ""
  ∧ headers (constructor (PayriffConfig.mk b (Some "") l c u))
      !! "Authorization" = Some DEFAULT_SECRET_KEY
  ∧ constructor (PayriffConfig.mk (Some "") k l c u) =
      constructor (PayriffConfig.mk None k l c u)
  ∧ baseUrl (constructor (PayriffConfig.mk (Some "") k l c u)) =
      "https://api.payriff.com/api/v3".
Proof.
  split_and!; reflexivity.
Qed.

End Properties.

(** ** The statements at work on the sample host *)

Section Samples.
#[local] Existing Instance sample_host.

(** [createOrder] on [{amount: 0, description, cardSave: false}]. *)
Lemma createOrder_merges_defaults_witness :
  let d := createOrder_defaultedRequest (this sample_state) sample_order in
  d !! "amount" = Some (VNum 0)
  ∧ d !! "cardSave" = Some (VBool false)
  ∧ d !! "language" = Some (VStr "AZ")
  ∧ d !! "currency" = Some (VStr "AZN")
  ∧ d !! "callbackUrl" = Some (VStr "")
  ∧ d !! "operation" = Some (VStr "PURCHASE").
Proof.
  destruct (createOrder_merges_defaults sample_state 0 sample_order)
    as (_ & _ & Hamount & Hsave & _ & Hlang & Hcur & Hurl & _ & Hop & _).
  { vm_compute. reflexivity. }
  split_and!.
  - apply Hamount. vm_compute. reflexivity.
  - apply Hsave. vm_compute. reflexivity.
  - apply Hlang. vm_compute. reflexivity.
  - apply Hcur. vm_compute. reflexivity.
  - apply Hurl. vm_compute. reflexivity.
  - apply Hop. vm_compute. reflexivity.
Defined.

(** C1, the claim as first stated, fails: a record whose [language] is
    written with the value [undefined] reads as [undefined] there, as an
    absent property does, yet the merged record holds [undefined] and not
    the default language. *)
Lemma createOrder_undefined_not_defaulted :
  JS.get sample_order_undefined "language" = VUndefined
  ∧ createOrder_defaultedRequest (this sample_state) sample_order_undefined
      !! "language" = Some VUndefined
  ∧ ¬ (∀ (self : PayriffSDK) (req : JS.object),
          JS.get req "language" = VUndefined →
          createOrder_defaultedRequest self req !! "language" =
            Some (VStr (Language_str (defaultLanguage self)))).
Proof.
  split_and!.
  - vm_compute. reflexivity.
  - vm_compute. reflexivity.
  - intros Hall.
    specialize (Hall (this sample_state) sample_order_undefined eq_refl).
    vm_compute in Hall. discriminate Hall.
Qed.

(** [autoPay] on a record that names its currency and nothing else
    optional. *)
Lemma autoPay_merges_defaults_witness :
  let d := autoPay_defaultedRequest (this sample_state) sample_autoPay in
  d !! "currency" = Some (VStr "USD")
  ∧ d !! "callbackUrl" = Some (VStr "")
  ∧ d !! "operation" = Some (VStr "PURCHASE")
  ∧ d !! "language" = None.
Proof.
  destruct (autoPay_merges_defaults sample_state 2 sample_autoPay)
    as (_ & _ & Hurl & Hop & Hlang & _ & Hwins).
  { vm_compute. reflexivity. }
  split_and!.
  - apply Hwins. vm_compute. reflexivity.
  - apply Hurl. vm_compute. reflexivity.
  - apply Hop. vm_compute. reflexivity.
  - rewrite Hlang. vm_compute. reflexivity.
Defined.

(** [refund({orderId: "X", amount: 10.99})] *)
Lemma refund_complete_request_witness :
  network (refund 1 sample_state).2 =
    [{| url := "https://api.payriff.com/api/v3/refund";
        init := {| method := POST;
                   init_headers := headers (this sample_state);
                   body := Some (sample_stringify sample_refund) |} |}]
  ∧ network (complete 1 sample_state).2 =
      [{| url := "https://api.payriff.com/api/v3/complete";
          init := {| method := POST;
                     init_headers := headers (this sample_state);
                     body := Some (sample_stringify sample_refund) |} |}].
Proof.
  destruct (refund_complete_request sample_state 1 sample_refund)
    as ((Hrefund & _) & (Hcomplete & _)).
  { vm_compute. reflexivity. }
  split; [exact Hrefund | exact Hcomplete].
Defined.

(** A GET answered with status 500 and the body [{}] is fulfilled with the
    parsed body. *)
Lemma status_is_passed_over_witness :
  (invoke (GetOrderInfo "X") sample_state).1 =
    Fulfilled (@Envelope sample_host "{}").
Proof.
  apply (status_is_passed_over (GetOrderInfo "X") sample_state
           (call_of sample_state "/orders/X" GET None) 500 "{}"
           ("{}" : @Json sample_host)).
  - vm_compute. reflexivity.
  - vm_compute. reflexivity.
  - vm_compute. reflexivity.
Defined.

(** A POST answered with an HTML page is rejected. *)
Lemma invalid_json_rejects_witness :
  (invoke (Refund 1) sample_state).1 = Rejected SyntaxError
  ∧ ∀ r, (invoke (Refund 1) sample_state).1 ≠ Fulfilled r.
Proof.
  apply (invalid_json_rejects (Refund 1) sample_state
           (call_of sample_state "/refund" POST
                    (Some (sample_stringify sample_refund)))
           200 "<html>Bad Gateway</html>").
  - vm_compute. reflexivity.
  - vm_compute. reflexivity.
  - vm_compute. reflexivity.
Defined.

(** [createOrder] leaves its argument and the client as they were. *)
Lemma invoke_mutates_nothing_witness :
  objects (invoke (CreateOrder 0) sample_state).2 !! 0 = Some sample_order
  ∧ this (invoke (CreateOrder 0) sample_state).2 = this sample_state.
Proof.
  destruct (invoke_mutates_nothing (CreateOrder 0) sample_state)
    as [Hobjects Hthis].
  split; [| exact Hthis].
  apply Hobjects. vm_compute. reflexivity.
Defined.

(** A client with the key ["S"], and one with no key at all, each through a
    script of three calls and one write of the program. *)
Lemma Authorization_is_the_secret_key_witness :
  let script :=
    [Invoke (CreateOrder 0);
     Program (λ objs, <[0 := sample_refund]> objs);
     Invoke (Refund 0);
     Invoke (GetOrderInfo "X");
     Invoke (IsSuccessful "00")] in
  Forall (λ call, init_headers (init call) !! "Authorization" = Some "S")
    (drop 0 (network (run script sample_state)))
  ∧ secretKey (constructor PayriffConfig.empty) = ""
  ∧ Forall (λ call, init_headers (init call) !! "Authorization" = Some "")
      (drop 0 (network
         (run script (constructed PayriffConfig.empty (objects sample_state) [])))).
Proof.
  intros script. split.
  - destruct (Authorization_is_the_secret_key sample_config
                (objects sample_state) [] script) as [Hkey _].
    apply Hkey.
    + reflexivity.
    + discriminate.
  - destruct (Authorization_is_the_secret_key PayriffConfig.empty
                (objects sample_state) [] script) as [_ Hnone].
    destruct Hnone as (Hsecret & _ & Hsent).
    + reflexivity.
    + vm_compute. reflexivity.
    + split; [exact Hsecret | exact Hsent].
Defined.

End Samples.

(** ** Further properties of the class *)

Section Further.
Context `{Host}.

(** *** What each call sends *)

Lemma invoke_request (c : Call) (s : State) :
  network (invoke c s).2 = (network s ++ option_list (request_of c s))%list
  ∧ this (invoke c s).2 = this s
  ∧ ∀ call, request_of c s = Some call →
      (invoke c s).1 =
        map_settled Envelope (settle (transport (network s) call)).
Proof.
  destruct c as [request | orderId | request | request | request | code];
    unfold invoke; rewrite ?bind_ret_run; simpl request_of.
  - unfold createOrder.
    destruct (objects s !! request) as [req |] eqn:Hreq; simpl.
    + rewrite (defaulting_run createOrder_defaultedRequest _ _ req) by done.
      split_and!; [done | done |]. by intros call [= <-].
    + rewrite defaulting_dangling by done. simpl.
      by rewrite app_nil_r.
  - unfold getOrderInfo. rewrite makeRequest_no_body.
    split_and!; [done | done |]. by intros call [= <-].
  - unfold refund.
    destruct (objects s !! request) as [req |] eqn:Hreq; simpl.
    + rewrite (makeRequest_body _ _ _ req) by done.
      split_and!; [done | done |]. by intros call [= <-].
    + rewrite makeRequest_dangling by done. simpl. by rewrite app_nil_r.
  - unfold complete.
    destruct (objects s !! request) as [req |] eqn:Hreq; simpl.
    + rewrite (makeRequest_body _ _ _ req) by done.
      split_and!; [done | done |]. by intros call [= <-].
    + rewrite makeRequest_dangling by done. simpl. by rewrite app_nil_r.
  - unfold autoPay.
    destruct (objects s !! request) as [req |] eqn:Hreq; simpl.
    + rewrite (defaulting_run autoPay_defaultedRequest _ _ req) by done.
      split_and!; [done | done |]. by intros call [= <-].
    + rewrite defaulting_dangling by done. simpl. by rewrite app_nil_r.
  - simpl. by rewrite app_nil_r.
Qed.

Lemma issued_request (c : Call) (s : State) :
  issued c s = option_list (request_of c s).
Proof.
  unfold issued. destruct (invoke_request c s) as (-> & _).
  by rewrite drop_app_length.
Qed.

Lemma invoke_unsent (c : Call) (s : State) :
  request_of c s = None → (invoke c s).2 = s.
Proof.
  intros Hnone. destruct (invoke_request c s) as (Hlog & _).
  rewrite Hnone, app_nil_r in Hlog.
  destruct (invoke_cases c s)
    as [[b Hc] | [[l Hc] | (call & objs & _ & _ & Hc)]];
    rewrite Hc in Hlog |- *; simpl in *; try done.
  apply (f_equal length) in Hlog. rewrite length_app in Hlog.
  simpl in Hlog. lia.
Qed.

Lemma invoke_objects (c : Call) (s : State) :
  objects s ⊆ objects (invoke c s).2.
Proof.
  destruct (invoke_cases c s)
    as [[b Hc] | [[l Hc] | (call & objs & Hsub & _ & Hc)]];
    by rewrite Hc.
Qed.

Lemma request_of_stable (c : Call) (s s' : State) :
  this s' = this s →
  (∀ r, argument c = Some r → objects s' !! r = objects s !! r) →
  request_of c s' = request_of c s.
Proof.
  intros Hthis Harg.
  destruct c as [r | orderId | r | r | r | code]; simpl in *;
    unfold call_of; rewrite ?Hthis, ?(Harg r eq_refl); done.
Qed.

(** X1. Whatever call a method handed to [fetch], if the transport fails
    with a message, the method's promise is rejected with that very failure:
    it is not caught, wrapped or turned into an envelope. *)
Theorem transport_failure_rejects (c : Call) (s : State) (call : FetchCall)
    (message : string) :
  network (invoke c s).2 = (network s ++ [call])%list →
  transport (network s) call = NetworkFailure message →
  (invoke c s).1 = Rejected (TypeError message).
Proof.
  intros Hlog Hnet. by rewrite (invoke_settles c s call Hlog), Hnet.
Qed.

(** X2. One call of a method hands [fetch] at most one call, whatever the
    transport answers: nothing is retried.  [isSuccessful] hands it none,
    [getOrderInfo] exactly one, and a method given a record of the store
    exactly one. *)
Theorem one_request_per_call (c : Call) (s : State) :
  (length (issued c s) ≤ 1)%nat
  ∧ (∀ code, c = IsSuccessful code → issued c s = [])
  ∧ (∀ orderId, c = GetOrderInfo orderId → length (issued c s) = 1)
  ∧ (∀ r req, argument c = Some r → objects s !! r = Some req →
              length (issued c s) = 1).
Proof.
  rewrite issued_request. split_and!.
  - destruct (request_of c s); simpl; lia.
  - by intros code ->.
  - by intros orderId ->.
  - intros r req Harg Hreq.
    destruct c; simplify_eq/=; by rewrite Hreq.
Qed.

(** X3. The request a method sends depends on the client's fields and on
    the record it is given, and on nothing else: not on the calls made
    before, not on the other records of the store. *)
Theorem request_is_stateless (c : Call) (s1 s2 : State) :
  this s1 = this s2 →
  (∀ r, argument c = Some r → objects s1 !! r = objects s2 !! r) →
  issued c s1 = issued c s2.
Proof.
  intros Hthis Harg. rewrite !issued_request.
  by rewrite (request_of_stable c s2 s1).
Qed.

(** X4. Calling a method twice in a row with the same argument sends the
    same request twice: the first call leaves nothing behind that the
    second would use, and nothing is cached or deduplicated. *)
Theorem same_call_twice (c : Call) (s : State) :
  network (run [Invoke c; Invoke c] s) =
    (network s ++ issued c s ++ issued c s)%list.
Proof.
  change (run [Invoke c; Invoke c] s)
    with (invoke c (invoke c s).2).2.
  destruct (invoke_request c (invoke c s).2) as (-> & _).
  destruct (invoke_request c s) as (Hlog & Hthis & _).
  rewrite issued_request, Hlog, <- app_assoc. do 2 f_equal.
  destruct (request_of c s) as [call |] eqn:Hcall.
  - rewrite <- Hcall. f_equal. apply request_of_stable; [done |].
    intros r Harg.
    destruct (objects s !! r) as [req |] eqn:Hreq.
    + eapply lookup_weaken; [exact Hreq | apply invoke_objects].
    + destruct c; simplify_eq/=; by rewrite Hreq in Hcall.
  - by rewrite invoke_unsent, Hcall.
Qed.

(** *** Every request of a client's life *)

Lemma request_of_client_call (c : Call) (s : State) (call : FetchCall) :
  request_of c s = Some call → client_call (this s) call.
Proof.
  unfold client_call.
  destruct c as [r | orderId | r | r | r | code]; simpl;
    try destruct (objects s !! r) as [req |]; simpl;
    intros [= <-]; (split; [done |]); try by (left; eexists).
  - right. eexists "/orders", _. split_and!; try done. set_solver.
  - right. eexists "/refund", _. split_and!; try done. set_solver.
  - right. eexists "/complete", _. split_and!; try done. set_solver.
  - right. eexists "/autoPay", _. split_and!; try done. set_solver.
Qed.

Lemma run_client_calls (script : list Step) (s : State) :
  this (run script s) = this s
  ∧ ∃ new, network (run script s) = (network s ++ new)%list
           ∧ Forall (client_call (this s)) new.
Proof.
  revert s. induction script as [| st script IH]; intros s.
  - split; [done |]. exists []. by rewrite app_nil_r.
  - change (run (st :: script) s) with (run script (step st s)).
    destruct (IH (step st s)) as (Hthis & new2 & Hlog2 & Hnew2).
    assert (this (step st s) = this s
            ∧ ∃ new1, network (step st s) = (network s ++ new1)%list
                      ∧ Forall (client_call (this s)) new1)
      as (Hthis1 & new1 & Hlog1 & Hnew1).
    { destruct st as [c | f]; simpl.
      - destruct (invoke_request c s) as (Hlog & Hth & _).
        split; [done |]. eexists. split; [exact Hlog |].
        destruct (request_of c s) as [call |] eqn:Hcall; simpl; [| done].
        apply Forall_singleton. by apply (request_of_client_call c).
      - split; [done |]. exists []. by rewrite app_nil_r. }
    split; [congruence |].
    exists (new1 ++ new2)%list. split.
    + by rewrite Hlog2, Hlog1, app_assoc.
    + apply Forall_app. split; [done |]. by rewrite <- Hthis1.
Qed.

Lemma sent_client_calls config objs log script :
  Forall (client_call (constructor config))
    (drop (length log) (network (run script (constructed config objs log)))).
Proof.
  destruct (run_client_calls script (constructed config objs log))
    as (_ & new & Hlog & Hnew).
  simpl in Hlog. rewrite Hlog. by rewrite drop_app_length.
Qed.

(** X5. Over the whole life of a client (any script of method calls and of
    the program's own writes to its records), every call handed to [fetch]
    is either a GET of [baseUrl + "/orders/" + id] without a body, or a POST
    with a body to [baseUrl] followed by one of [/orders], [/refund],
    [/complete], [/autoPay]: never a GET with a body, never a POST without
    one, never another path, and [baseUrl] is prepended as it is. *)
Theorem requests_have_two_shapes (config : PayriffConfig.t)
    (objs : gmap nat JS.object) (log : list FetchCall) (script : list Step) :
  let self := constructor config in
  Forall (λ call,
            (∃ orderId, url call = baseUrl self +:+ "/orders/" +:+ orderId
                        ∧ method (init call) = GET
                        ∧ body (init call) = None)
            ∨ (∃ path text,
                  path ∈ ["/orders"; "/refund"; "/complete"; "/autoPay"]
                  ∧ url call = baseUrl self +:+ path
                  ∧ method (init call) = POST
                  ∧ body (init call) = Some text))
    (drop (length log) (network (run script (constructed config objs log)))).
Proof.
  intros self.
  eapply Forall_impl; [apply sent_client_calls |].
  by intros call [_ Hshape].
Qed.

(** X6. Over the whole life of a client, every call handed to [fetch], a
    GET included, carries exactly two headers: [Authorization] and
    [Content-Type], the latter equal to [application/json]. *)
Theorem requests_have_two_headers (config : PayriffConfig.t)
    (objs : gmap nat JS.object) (log : list FetchCall) (script : list Step) :
  Forall (λ call,
            init_headers (init call) !! "Content-Type"
              = Some "application/json"
            ∧ dom (init_headers (init call))
              = ({["Authorization"; "Content-Type"]} : gset string))
    (drop (length log) (network (run script (constructed config objs log)))).
Proof.
  eapply Forall_impl; [apply sent_client_calls |].
  intros call [-> _]. unfold constructor. cbn [headers]. split.
  - by rewrite lookup_insert_eq.
  - rewrite !dom_insert_L, dom_empty_L. set_solver.
Qed.

(** *** The constructor *)

(** X7. Values given in the configuration win as they are: a non-empty
    [baseUrl], [secretKey] and [defaultCallbackUrl] and any
    [defaultLanguage] and [defaultCurrency] become the client's fields,
    whatever the environment holds. *)
Theorem constructor_explicit_values (b k u : string) (l : Language)
    (c : Currency) :
  b ≠ "" → k ≠ "" → u ≠ "" →
  constructor (PayriffConfig.mk (Some b) (Some k) (Some l) (Some c) (Some u))
  = {| baseUrl := b;
       secretKey := k;
       defaultLanguage := l;
       defaultCurrency := c;
       defaultCallbackUrl := u;
       headers := <["Content-Type" := "application/json"]>
                    (<["Authorization" := k]> ∅) |}.
Proof.
  intros Hb Hk Hu. unfold constructor. cbn [PayriffConfig.baseUrl
    PayriffConfig.secretKey PayriffConfig.defaultLanguage
    PayriffConfig.defaultCurrency PayriffConfig.defaultCallbackUrl].
  rewrite !or_truthy_string by done.
  by destruct l, c.
Qed.

(** X8. Where the defaults of [createOrder] come from.  For a client built
    from [config] and a stored record without [language], [currency] or
    [callbackUrl], the record that is serialised has the configuration's
    language, else ["AZ"]; the configuration's currency, else ["AZN"]; and
    as callback URL the configuration's if it is given and not empty, else
    the environment's [PAYRIFF_CALLBACK_URL], else the empty string: the
    property is sent even when nothing was configured. *)
Theorem createOrder_default_sources (config : PayriffConfig.t)
    (objs : gmap nat JS.object) (log : list FetchCall) (request : nat)
    (req : JS.object) :
  objs !! request = Some req →
  let s := constructed config objs log in
  let d := createOrder_defaultedRequest (constructor config) req in
  let env_url := default "" (process_env !! "PAYRIFF_CALLBACK_URL") in
  issued (CreateOrder request) s =
    [{| url := baseUrl (constructor config) +:+ "/orders";
        init := {| method := POST;
                   init_headers := headers (constructor config);
                   body := Some (JSON_stringify d) |} |}]
  ∧ (req !! "language" = None →
     d !! "language" =
       Some (VStr (Language_str
                     (default AZ (PayriffConfig.defaultLanguage config)))))
  ∧ (req !! "currency" = None →
     d !! "currency" =
       Some (VStr (Currency_str
                     (default AZN (PayriffConfig.defaultCurrency config)))))
  ∧ (req !! "callbackUrl" = None →
     d !! "callbackUrl" =
       Some (VStr match PayriffConfig.defaultCallbackUrl config with
                  | Some u => if decide (u = "") then env_url else u
                  | None => env_url
                  end)).
Proof.
  intros Hreq s d env_url.
  assert (Henv : DEFAULT_CALLBACK_URL = env_url).
  { unfold DEFAULT_CALLBACK_URL, env_url, JS.or.
    destruct (process_env !! "PAYRIFF_CALLBACK_URL") as [e |]; [| done].
    unfold truthy, string_truthy. simpl.
    destruct (String.eqb_spec e ""); by subst. }
  split_and!.
  - rewrite issued_request. simpl. by rewrite Hreq.
  - intros Hk. subst d. rewrite createOrder_defaultedRequest_lookup, Hk.
    simpl. by destruct config as [? ? [[] |] ? ?].
  - intros Hk. subst d. rewrite createOrder_defaultedRequest_lookup, Hk.
    simpl. by destruct config as [? ? ? [[] |] ?].
  - intros Hk. subst d. rewrite createOrder_defaultedRequest_lookup, Hk.
    simpl. rewrite Henv. destruct config as [? ? ? ? [u |]]; simpl; [| done].
    unfold JS.or, truthy, string_truthy.
    case_decide as Hu.
    + by subst u.
    + by apply String.eqb_neq in Hu as ->.
Qed.

(** *** The merged records *)

Lemma is_Some_createOrder_default self (req : JS.object) k :
  k ∈ ["language"; "currency"; "callbackUrl"; "cardSave"; "operation"] →
  is_Some (createOrder_defaultedRequest self req !! k).
Proof.
  intros Hk. rewrite createOrder_defaultedRequest_lookup.
  destruct (req !! k); [done |].
  repeat (case_decide; [done |]).
  apply list_elem_of_In in Hk. simpl in Hk. intuition congruence.
Qed.

Lemma is_Some_autoPay_default self (req : JS.object) k :
  k ∈ ["currency"; "callbackUrl"; "operation"] →
  is_Some (autoPay_defaultedRequest self req !! k).
Proof.
  intros Hk. rewrite autoPay_defaultedRequest_lookup.
  destruct (req !! k); [done |].
  repeat (case_decide; [done |]).
  apply list_elem_of_In in Hk. simpl in Hk. intuition congruence.
Qed.

Lemma createOrder_full self (req : JS.object) :
  (∀ k, k ∈ ["language"; "currency"; "callbackUrl"; "cardSave"; "operation"]
        → is_Some (req !! k)) →
  createOrder_defaultedRequest self req = req.
Proof.
  intros Hfull. apply map_eq. intros k.
  rewrite createOrder_defaultedRequest_lookup.
  destruct (req !! k) eqn:Hk; [done |].
  repeat (destruct (decide (k = _)) as [Hname | _];
          [exfalso;
           assert (is_Some (req !! k)) as [v Hv]
             by (apply Hfull; rewrite Hname; apply list_elem_of_In;
                 simpl; auto 10);
           congruence |]).
  done.
Qed.

Lemma autoPay_full self (req : JS.object) :
  (∀ k, k ∈ ["currency"; "callbackUrl"; "operation"] → is_Some (req !! k)) →
  autoPay_defaultedRequest self req = req.
Proof.
  intros Hfull. apply map_eq. intros k.
  rewrite autoPay_defaultedRequest_lookup.
  destruct (req !! k) eqn:Hk; [done |].
  repeat (destruct (decide (k = _)) as [Hname | _];
          [exfalso;
           assert (is_Some (req !! k)) as [v Hv]
             by (apply Hfull; rewrite Hname; apply list_elem_of_In;
                 simpl; auto 10);
           congruence |]).
  done.
Qed.

(** X9. The record [createOrder] serialises has the caller's properties and
    the five defaulted names, and no other; the record [autoPay] serialises
    has the caller's properties and [currency], [callbackUrl], [operation],
    and no other. *)
Theorem defaulted_record_keys (self : PayriffSDK) (req : JS.object) :
  dom (createOrder_defaultedRequest self req) =
    dom req ∪ list_to_set ["language"; "currency"; "callbackUrl"; "cardSave";
                           "operation"]
  ∧ dom (autoPay_defaultedRequest self req) =
      dom req ∪ list_to_set ["currency"; "callbackUrl"; "operation"].
Proof.
  split; apply set_eq; intros k;
    rewrite elem_of_union, elem_of_list_to_set, !elem_of_dom,
      list_elem_of_In; simpl.
  - rewrite createOrder_defaultedRequest_lookup.
    destruct (req !! k) as [v |]; [split; [by left | by eexists] |].
    repeat (destruct (decide (k = _)) as [-> | ?];
            [split; [intros _; right; auto 10 | by eexists] |]).
    split; [by intros [? ?] |].
    intros [[? ?] | Hin]; [done | exfalso; intuition congruence].
  - rewrite autoPay_defaultedRequest_lookup.
    destruct (req !! k) as [v |]; [split; [by left | by eexists] |].
    repeat (destruct (decide (k = _)) as [-> | ?];
            [split; [intros _; right; auto 10 | by eexists] |]).
    split; [by intros [? ?] |].
    intros [[? ?] | Hin]; [done | exfalso; intuition congruence].
Qed.


(** X11. Backfilling is idempotent, and across clients: a record that
    [createOrder] has merged passes through the merge of any client, and
    through that of [autoPay], unchanged; so does a record merged by
    [autoPay] through [autoPay]. *)
Theorem defaulting_is_idempotent (self self' : PayriffSDK) (req : JS.object) :
  createOrder_defaultedRequest self (createOrder_defaultedRequest self' req)
    = createOrder_defaultedRequest self' req
  ∧ autoPay_defaultedRequest self (createOrder_defaultedRequest self' req)
    = createOrder_defaultedRequest self' req
  ∧ autoPay_defaultedRequest self (autoPay_defaultedRequest self' req)
    = autoPay_defaultedRequest self' req.
Proof.
  split_and!.
  - apply createOrder_full. intros k Hk.
    by apply is_Some_createOrder_default.
  - apply autoPay_full. intros k Hk.
    apply is_Some_createOrder_default.
    apply list_elem_of_In in Hk. apply list_elem_of_In.
    simpl in *. intuition.
  - apply autoPay_full. intros k Hk.
    by apply is_Some_autoPay_default.
Qed.

(** *** The first version of the class *)





(** X16. A method reads its record when it is called, not before: when the
    program rewrites a record between two refunds of it, the first request
    carries the record as it was and the second the record as rewritten. *)
Theorem refund_reads_the_record_when_called (s : State) (request : nat)
    (req req' : JS.object) :
  objects s !! request = Some req →
  network (run [Invoke (Refund request);
                Program (λ objs, <[request := req']> objs);
                Invoke (Refund request)] s) =
    (network s ++
       [call_of s "/refund" POST (Some (JSON_stringify req));
        call_of s "/refund" POST (Some (JSON_stringify req'))])%list.
Proof.
  intros Hreq.
  change (run _ s) with
    (invoke (Refund request)
       (step (Program (λ objs, <[request := req']> objs))
             (invoke (Refund request) s).2)).2.
  set (s1 := (invoke (Refund request) s).2).
  destruct (invoke_request (Refund request) s) as (Hlog1 & Hthis1 & _).
  fold s1 in Hlog1, Hthis1. simpl in Hlog1. rewrite Hreq in Hlog1.
  set (s2 := step _ s1).
  destruct (invoke_request (Refund request) s2) as (-> & _ & _).
  simpl. rewrite lookup_insert_eq. simpl.
  rewrite Hlog1, <- app_assoc. unfold call_of. simpl. by rewrite Hthis1.
Qed.

(** *** The example program *)












End Further.

(** ** The further statements at work *)

Section FurtherSamples.

(** With the network down, [refund] is rejected with the failure of
    [fetch]. *)
Lemma transport_failure_rejects_witness :
  (@invoke offline_host (Refund 1) sample_state).1 =
    Rejected (TypeError "fetch failed").
Proof.
  apply (@transport_failure_rejects offline_host (Refund 1) sample_state
           (call_of sample_state "/refund" POST
              (Some (sample_stringify sample_refund)))
           "fetch failed").
  - vm_compute. reflexivity.
  - reflexivity.
Defined.

Lemma one_request_per_call_witness :
  @issued sample_host (IsSuccessful "00") sample_state = []
  ∧ length (@issued sample_host (GetOrderInfo "X") sample_state) = 1
  ∧ length (@issued sample_host (AutoPay 2) sample_state) = 1.
Proof.
  split_and!.
  - destruct (@one_request_per_call sample_host (IsSuccessful "00")
                sample_state) as (_ & Hnone & _).
    by apply (Hnone "00").
  - destruct (@one_request_per_call sample_host (GetOrderInfo "X")
                sample_state) as (_ & _ & Hget & _).
    by apply (Hget "X").
  - destruct (@one_request_per_call sample_host (AutoPay 2) sample_state)
      as (_ & _ & _ & Hone).
    apply (Hone 2 sample_autoPay).
    + reflexivity.
    + vm_compute. reflexivity.
Defined.

(** The same refund from two moments of the client's life. *)
Lemma request_is_stateless_witness :
  @issued sample_host (Refund 1) sample_state =
  @issued sample_host (Refund 1) sample_state_later.
Proof.
  apply (@request_is_stateless sample_host).
  - reflexivity.
  - intros r [= <-]. vm_compute. reflexivity.
Defined.

Lemma constructor_explicit_values_witness :
  @constructor online_host
    (PayriffConfig.mk (Some "http://localhost:8080/") (Some "S") (Some RU)
       (Some USD) (Some "https://example.com/webhook"))
  = {| baseUrl := "http://localhost:8080/";
       secretKey := "S";
       defaultLanguage := RU;
       defaultCurrency := USD;
       defaultCallbackUrl := "https://example.com/webhook";
       headers := <["Content-Type" := "application/json"]>
                    (<["Authorization" := "S"]> ∅) |}.
Proof.
  apply (@constructor_explicit_values online_host); discriminate.
Defined.

(** A client built without a callback URL, where the environment has one:
    the order carries the environment's. *)
Lemma createOrder_default_sources_witness :
  let d := createOrder_defaultedRequest
             (@constructor online_host PayriffConfig.empty) sample_order in
  d !! "language" = Some (VStr "AZ")
  ∧ d !! "currency" = Some (VStr "AZN")
  ∧ d !! "callbackUrl" = Some (VStr "https://shop.example/cb").
Proof.
  destruct (@createOrder_default_sources online_host PayriffConfig.empty
              (objects sample_state) [] 0 sample_order)
    as (_ & Hlanguage & Hcurrency & Hurl).
  { vm_compute. reflexivity. }
  split_and!.
  - apply Hlanguage. vm_compute. reflexivity.
  - apply Hcurrency. vm_compute. reflexivity.
  - apply Hurl. vm_compute. reflexivity.
Defined.



(** Two refunds of record 1, rewritten in between as the order record. *)
Lemma refund_reads_the_record_when_called_witness :
  map (λ c, body (init c))
    (network
       (@run sample_host
          [Invoke (Refund 1);
           Program (λ objs, <[1 := sample_order]> objs);
           Invoke (Refund 1)] sample_state))
  = [Some (sample_stringify sample_refund);
     Some (sample_stringify sample_order)].
Proof.
  rewrite (@refund_reads_the_record_when_called sample_host sample_state 1
             sample_refund sample_order).
  - reflexivity.
  - vm_compute. reflexivity.
Defined.


End FurtherSamples.
